(** * dip_utils.vis_utils: a shallow embedding and its properties

    The module [src/dip_utils/vis_utils.py] plots the pixels of an image
    as a scatter in a colour space ([vis_rgb_cube], [vis_hsv_cube],
    [vis_lab_cube]), plots three-channel histograms ([vis_hists]) and
    normalises the lightness of a colour list ([lab_uniform]).  They are
    embedded here as computations in a state-and-exception monad whose
    state is the global NumPy random state together with the log of the
    calls made on the plotting surface.

    Conventions.
    - NumPy, scikit-image and matplotlib are libraries the module calls.
      The primitives used ([np.random.choice], [np.histogram], [min],
      [max], indexing, [squeeze], [assert]) follow their documented
      behaviour, errors included; matplotlib is a recorder of calls.
    - A finite floating-point number is a rational; array elements are
      [Q].  Comparisons on them are exact.  The rounded arithmetic and the
      trigonometric functions are the fields of [FloatOps], the per-pixel
      colour conversions of scikit-image those of [ColorLib]: the
      theorems hold for every choice of them, and only the histogram
      edges need a few exactness facts ([FloatLaws]).
    - An assertion error carries the fixed part of its message.
    - The Python functions return [None].  The embedded ones return the
      local [randomInds] (and [lab_uniform] its array) so that the
      properties of the sample can be stated.
    - Sample counts and indices are natural numbers. *)

From Stdlib Require Import QArith Qminmax ZArith List String Lia Lqa Permutation.
From stdpp Require Import base list.
Import ListNotations.
Open Scope nat_scope.

(** ** Exceptions and the monad *)

Inductive exn : Type :=
| AssertionError (msg : string)
| ValueError (msg : string)
| IndexError (msg : string)
| TypeError (msg : string).

Inductive result (A : Type) : Type :=
| Ok (a : A)
| Raise (e : exn).
Arguments Ok {A} a.
Arguments Raise {A} e.

(** The legacy global generator [np.random]: an infinite tape of raw draws
    and the position of the next one. *)
Record RandomState : Type := mkRandomState {
  tape : nat -> nat;
  cursor : nat
}.

Definition pixel : Type := (Q * Q * Q)%type.

Inductive dtype : Type := DFloat | DInt.

(** A NumPy array: element kind, shape and the elements in C order. *)
Record ndarray : Type := mkArray {
  arr_dtype : dtype;
  shape : list nat;
  data : list Q
}.

(** Calls received by the plotting surface (matplotlib), in order. *)
Inductive plot_cmd : Type :=
| Figure (width height : nat)
| AddSubplot3d (position : nat)
| Subplots (rows cols width height : nat)
| Scatter (xs ys zs : list Q) (c : list pixel) (depthshade : option bool)
| SetXLabel (s : string)
| SetYLabel (s : string)
| SetZLabel (s : string)
| Imshow (I : ndarray)
| SetTitle (s : string)
| Hist (x : list Q) (bins : list Q) (alpha : Q) (label color : string)
| Legend (loc : string)
| TightLayout.

Record World : Type := mkWorld {
  rng : RandomState;
  plots : list plot_cmd
}.

Definition M (A : Type) : Type := World -> result A * World.

Definition ret {A} (a : A) : M A := fun w => (Ok a, w).

Definition raise {A} (e : exn) : M A := fun w => (Raise e, w).

Definition bind {A B} (m : M A) (k : A -> M B) : M B :=
  fun w => match m w with
           | (Ok a, w') => k a w'
           | (Raise e, w') => (Raise e, w')
           end.

Notation "'do' x <- m ; k" := (bind m (fun x => k))
  (at level 10, x name, m at level 100, k at level 200).
Notation "'run' m ; k" := (bind m (fun _ => k))
  (at level 10, m at level 100, k at level 200).

Definition lift {A} (r : result A) : M A := fun w => (r, w).

(** [assert cond, msg] *)
Definition assert_ (cond : bool) (msg : string) : M unit :=
  if cond then ret tt else raise (AssertionError msg).

(** A call on the plotting surface appends to the log. *)
Definition plot (c : plot_cmd) : M unit :=
  fun w => (Ok tt, {| rng := rng w; plots := plots w ++ [c] |}).

(** ** NumPy primitives *)

(** [a.size] as determined by the shape. *)
Definition shape_size (s : list nat) : nat := fold_right Nat.mul 1 s.

(** Every array built by NumPy has as many elements as its shape says. *)
Definition wf_array (a : ndarray) : Prop :=
  length (data a) = shape_size (shape a).

(** [a.ravel()] *)
Definition ravel (a : ndarray) : list Q := data a.

(** [a.shape[-1]] *)
Definition last_dim (a : ndarray) : option nat := last (shape a).

(** [a[..., i].ravel()]: the elements whose last index is [i]. *)
Definition channel (a : ndarray) (i : nat) : result (list Q) :=
  match last_dim a with
  | None => Raise (IndexError "too many indices for array")
  | Some c =>
      if i <? c
      then Ok (map (fun p => nth (p * c + i) (data a) 0%Q)
                   (seq 0 (length (data a) / c)))
      else Raise (IndexError "index out of bounds for axis")
  end.

(** [np.stack([c0, c1, c2]).T]: the N x 3 matrix as a list of rows. *)
Definition stack3_T (c0 c1 c2 : list Q) : list pixel :=
  map (fun '(r, g, b) => (r, g, b)) (combine (combine c0 c1) c2).

(** [a.min()] and [a.max()]: a zero-size array has no minimum. *)
Definition np_min (l : list Q) : result Q :=
  match l with
  | [] => Raise (ValueError "zero-size array to reduction operation minimum which has no identity")
  | x :: t => Ok (fold_left Qmin t x)
  end.

Definition np_max (l : list Q) : result Q :=
  match l with
  | [] => Raise (ValueError "zero-size array to reduction operation maximum which has no identity")
  | x :: t => Ok (fold_left Qmax t x)
  end.

(** [X[inds]] for a list of integer indices: out of range raises. *)
Fixpoint take_rows {A} (X : list A) (inds : list nat) : result (list A) :=
  match inds with
  | [] => Ok []
  | i :: rest =>
      match X !! i with
      | None => Raise (IndexError "index out of bounds for axis")
      | Some x =>
          match take_rows X rest with
          | Ok xs => Ok (x :: xs)
          | Raise e => Raise e
          end
      end
  end.

(** [np.arange(n)] *)
Definition np_arange (n : nat) : list nat := seq 0 n.

(** *** The random-sampling primitive *)

(** One bounded draw: a number in [0, max], consuming one tape cell. *)
Definition random_interval (max : nat) (g : RandomState) : nat * RandomState :=
  (tape g (cursor g) mod (S max),
   {| tape := tape g; cursor := S (cursor g) |}).

(** [x[i], x[j] = x[j], x[i]] *)
Definition swap {A} (l : list A) (i j : nat) : list A :=
  match l !! i, l !! j with
  | Some xi, Some xj => <[j := xi]> (<[i := xj]> l)
  | _, _ => l
  end.

(** [RandomState.shuffle]: for i = n-1 down to 1, swap x[i] with x[j] for
    a j drawn in [0, i]. *)
Fixpoint shuffle_from {A} (i : nat) (x : list A) (g : RandomState)
  : list A * RandomState :=
  match i with
  | 0 => (x, g)
  | S i' =>
      let '(j, g') := random_interval i g in
      shuffle_from i' (swap x i j) g'
  end.

(** [RandomState.permutation(n)]: shuffle [arange(n)]. *)
Definition np_random_permutation (n : nat) (g : RandomState)
  : list nat * RandomState :=
  shuffle_from (pred n) (np_arange n) g.

(** [np.random.choice(a, size, replace=False)] on the index range of a
    population of [pop_size] elements: an oversized request raises, else
    the first [size] entries of a random permutation are returned.  The
    message for an empty population depends on how [a] was given. *)
Definition choice_indices (empty_msg : string) (pop_size size : nat)
  : M (list nat) :=
  if (pop_size =? 0) && negb (size =? 0)
  then raise (ValueError empty_msg)
  else if pop_size <? size
  then raise (ValueError
                "Cannot take a larger sample than population when 'replace=False'")
  else fun w =>
         let '(p, g') := np_random_permutation pop_size (rng w) in
         (Ok (take size p), {| rng := g'; plots := plots w |}).

Definition msg_empty_int : string :=
  "a must be greater than 0 unless no samples are taken".
Definition msg_empty_arr : string :=
  "'a' cannot be empty unless no samples are taken".

(** The population given as an integer [n] (it stands for [arange(n)]). *)
Definition np_random_choice_int (n size : nat) : M (list nat) :=
  choice_indices msg_empty_int n size.

(** The population given as a one-dimensional array [a]. *)
Definition np_random_choice_arr (a : list nat) (size : nat) : M (list nat) :=
  do idx <- choice_indices msg_empty_arr (length a) size;
  lift (take_rows a idx).

(** [len(a)] of an array: its first dimension. *)
Definition py_len (a : ndarray) : result nat :=
  match shape a with
  | [] => Raise (TypeError "len() of unsized object")
  | d :: _ => Ok d
  end.

(** [a.squeeze()]: drop the axes of length one. *)
Definition squeeze (a : ndarray) : ndarray :=
  {| arr_dtype := arr_dtype a;
     shape := List.filter (fun d => negb (d =? 1)) (shape a);
     data := data a |}.

(** ** Floating-point arithmetic and the colour library *)

(** The rounded operations of binary64 and the constant [np.pi]. *)
Class FloatOps : Type := {
  fadd : Q -> Q -> Q;
  fsub : Q -> Q -> Q;
  fmul : Q -> Q -> Q;
  fdiv : Q -> Q -> Q;
  fsum : list Q -> Q;
  fcos : Q -> Q;
  fsin : Q -> Q;
  fpi : Q
}.


(** The per-pixel conversions of [skimage.color]; the ones from RGB first
    bring the pixel to floating point according to the array's dtype. *)
Class ColorLib : Type := {
  rgb2hsv_px : dtype -> pixel -> pixel;
  rgb2lab_px : dtype -> pixel -> pixel;
  lab2rgb_px : pixel -> pixel
}.

(** The pixels of an array whose last axis has length three. *)
Definition pixels (a : ndarray) : list pixel :=
  map (fun p => (nth (p * 3) (data a) 0, nth (p * 3 + 1) (data a) 0,
                 nth (p * 3 + 2) (data a) 0)%Q)
      (seq 0 (length (data a) / 3)).

Definition flatten_px (l : list pixel) : list Q :=
  flat_map (fun '(x, y, z) => [x; y; z]) l.

Definition map_px (f : Q -> Q) (l : list pixel) : list pixel :=
  map (fun '(x, y, z) => (f x, f y, f z)) l.

(** A conversion applied along the last axis: scikit-image refuses an
    array whose last axis is not of length three. *)
Definition convert (f : pixel -> pixel) (a : ndarray) : result ndarray :=
  match last_dim a with
  | Some 3 =>
      Ok {| arr_dtype := DFloat; shape := shape a;
            data := flatten_px (map f (pixels a)) |}
  | _ => Raise (ValueError "the input array must have size 3 along channel_axis")
  end.

Definition color_rgb2hsv {C : ColorLib} (a : ndarray) : result ndarray :=
  convert (rgb2hsv_px (arr_dtype a)) a.

Definition color_rgb2lab {C : ColorLib} (a : ndarray) : result ndarray :=
  convert (rgb2lab_px (arr_dtype a)) a.

Definition color_lab2rgb {C : ColorLib} (a : ndarray) : result ndarray :=
  convert lab2rgb_px a.

(** [np.stack([I[...,i].ravel() for i in range(3)]).T] *)
Definition rgb_rows (I : ndarray) : M (list pixel) :=
  do c0 <- lift (channel I 0);
  do c1 <- lift (channel I 1);
  do c2 <- lift (channel I 2);
  ret (stack3_T c0 c1 c2).

(** *** [np.histogram(a, bins)]: the bin edges *)

(** [np.linspace(start, stop, num)] for [num >= 2], end point included. *)
Definition np_linspace {F : FloatOps} (start stop : Q) (num : nat) : list Q :=
  let div := num - 1 in
  let delta := fsub stop start in
  let step := fdiv delta (inject_Z (Z.of_nat div)) in
  let y i :=
    if Qeq_bool step 0
    then fmul (fdiv (inject_Z (Z.of_nat i)) (inject_Z (Z.of_nat div))) delta
    else fmul (inject_Z (Z.of_nat i)) step in
  map (fun i => fadd (y i) start) (seq 0 div) ++ [stop].

(** The range of the data, widened by one half on each side when it is a
    single point; [(0, 1)] for no data. *)
Definition outer_edges {F : FloatOps} (a : list Q) : Q * Q :=
  match np_min a, np_max a with
  | Ok mn, Ok mx =>
      if Qeq_bool mn mx then (fsub mn (1 # 2), fadd mx (1 # 2)) else (mn, mx)
  | _, _ => (0, 1)%Q
  end.

Definition histogram_bin_edges {F : FloatOps} (a : list Q) (bins : nat) : list Q :=
  let '(first_edge, last_edge) := outer_edges a in
  np_linspace first_edge last_edge (bins + 1).

(** ** The functions of [vis_utils.py] *)

Definition NUMPOINTS : nat := 5000.

Definition is_3channel (I : ndarray) : bool :=
  (length (shape I) =? 3) &&
  match last_dim I with Some c => c =? 3 | None => false end.

(** [I.min() >= 0 and I.max() <= bound] *)
Definition in_range (I : ndarray) (bound : Q) : M bool :=
  do mn <- lift (np_min (ravel I));
  if Qle_bool 0 mn
  then do mx <- lift (np_max (ravel I)); ret (Qle_bool mx bound)
  else ret false.

Definition col0 (X : list pixel) : list Q := map (fun '(x, _, _) => x) X.
Definition col1 (X : list pixel) : list Q := map (fun '(_, y, _) => y) X.
Definition col2 (X : list pixel) : list Q := map (fun '(_, _, z) => z) X.

Definition vis_rgb_cube {F : FloatOps} (I : ndarray) (numPoints : nat)
  : M (list nat) :=
  run assert_ (is_3channel I) "visRGB Error: I.shape should be 3-channel";
  run match arr_dtype I with
      | DFloat =>
          do ok <- in_range I 1;
          assert_ ok "visRGB Error: float I should be in [0,1]"
      | DInt =>
          do ok <- in_range I 255;
          assert_ ok "visRGB Error: integer I should be in [0,255]"
      end;
  do mx <- lift (np_max (ravel I));
  let colr_func : Q -> Q :=
    if Qle_bool mx 1 then (fun x => x) else (fun x => fdiv x 255) in
  run plot (Figure 4 4);
  run plot (AddSubplot3d 111);
  do X <- rgb_rows I;
  do randomInds <- np_random_choice_arr (np_arange (length X)) NUMPOINTS;
  do xs <- lift (take_rows (col0 X) randomInds);
  do ys <- lift (take_rows (col1 X) randomInds);
  do zs <- lift (take_rows (col2 X) randomInds);
  do rows <- lift (take_rows X randomInds);
  run plot (Scatter xs ys zs (map_px colr_func rows) None);
  run plot (SetXLabel "Red");
  run plot (SetYLabel "Green");
  run plot (SetZLabel "Blue");
  run plot TightLayout;
  ret randomInds.

(** The display colours of the three colour-space plots: rescaled to
    [0, 1] when some component exceeds one. *)
Definition point_colors_of {F : FloatOps} (Xrgb : list pixel) (inds : list nat)
  : M (list pixel) :=
  do point_colors <- lift (take_rows Xrgb inds);
  do mx <- lift (np_max (flatten_px point_colors));
  if negb (Qle_bool mx 1)
  then
    do mn <- lift (np_min (flatten_px point_colors));
    let shifted := map_px (fun v => fsub v mn) point_colors in
    do mx' <- lift (np_max (flatten_px shifted));
    ret (map_px (fun v => fdiv v mx') shifted)
  else ret point_colors.

Definition vis_hsv_cube {F : FloatOps} {C : ColorLib} (I : ndarray) (numpoints : nat)
  : M (list nat) :=
  do Ihsv <- lift (color_rgb2hsv I);
  do h <- lift (channel Ihsv 0);
  let P := map (fun v => fmul (fmul 2 fpi) v) h in
  do R <- lift (channel Ihsv 1);
  do Z <- lift (channel Ihsv 2);
  let X := zip_with fmul R (map fcos P) in
  let Y := zip_with fmul R (map fsin P) in
  do Xrgb <- rgb_rows I;
  do randomInds <- np_random_choice_int (length X) numpoints;
  run plot (Figure 4 4);
  run plot (AddSubplot3d 111);
  do point_colors <- point_colors_of Xrgb randomInds;
  do xs <- lift (take_rows X randomInds);
  do ys <- lift (take_rows Y randomInds);
  do zs <- lift (take_rows Z randomInds);
  run plot (Scatter xs ys zs point_colors (Some true));
  run plot (SetXLabel "H and S");
  run plot (SetYLabel "H and S");
  run plot (SetZLabel "Value");
  ret randomInds.

Definition vis_lab_cube {F : FloatOps} {C : ColorLib} (I : ndarray) (numpoints : nat)
  : M (list nat) :=
  do Ilab <- lift (color_rgb2lab I);
  do Xlab <- rgb_rows Ilab;
  do Xrgb <- rgb_rows I;
  do randomInds <- np_random_choice_arr (np_arange (length Xlab)) numpoints;
  run plot (Figure 4 4);
  run plot (AddSubplot3d 111);
  do point_colors <- point_colors_of Xrgb randomInds;
  do xs <- lift (take_rows (col1 Xlab) randomInds);
  do ys <- lift (take_rows (col2 Xlab) randomInds);
  do zs <- lift (take_rows (col0 Xlab) randomInds);
  run plot (Scatter xs ys zs point_colors (Some true));
  run plot (SetXLabel "green->red");
  run plot (SetYLabel "blue->yellow");
  run plot (SetZLabel "Lightness");
  ret randomInds.


(** [np.array(lyst, ndmin=3)] for a list of colour triples whose numbers
    are of kind [dt]: ones are prepended to the shape up to three axes;
    the empty list is one-dimensional of length zero. *)
Definition np_array_ndmin3 (dt : dtype) (lyst : list pixel) : ndarray :=
  match lyst with
  | [] => {| arr_dtype := DFloat; shape := [1; 1; 0]; data := [] |}
  | _ => {| arr_dtype := dt; shape := [1; length lyst; 3];
            data := flatten_px lyst |}
  end.

(** [np.mean(v)] *)
Definition np_mean {F : FloatOps} (v : list Q) : Q :=
  fdiv (fsum v) (inject_Z (Z.of_nat (length v))).

(** [a[..., 0] = m] on an array of pixels. *)
Definition set_channel0 (m : Q) (a : ndarray) : ndarray :=
  {| arr_dtype := arr_dtype a; shape := shape a;
     data := flatten_px (map (fun '(_, y, z) => (m, y, z)) (pixels a)) |}.

Definition lab_uniform {F : FloatOps} {C : ColorLib} (dt : dtype) (lyst : list pixel)
  : result ndarray :=
  let clyst := np_array_ndmin3 dt lyst in
  match color_rgb2lab clyst with
  | Raise e => Raise e
  | Ok clyst_lab =>
      match channel clyst_lab 0 with
      | Raise e => Raise e
      | Ok lightness =>
          let clyst_lab' := set_channel0 (np_mean lightness) clyst_lab in
          match color_lab2rgb clyst_lab' with
          | Raise e => Raise e
          | Ok rgb => Ok (squeeze rgb)
          end
      end
  end.

(** ** Vocabulary of the properties *)

(** The number of pixels, [X.shape[0]] of the N x 3 pixel matrix. *)
Definition pixel_count (I : ndarray) : nat := length (pixels I).

(** What a draw of [size <= pop_size] indices looks like. *)
Definition is_sample (pop_size size : nat) (inds : list nat) : Prop :=
  length inds = size /\ NoDup inds /\ Forall (fun i => i < pop_size) inds.

(** Every element lies in [lo, hi]. *)
Definition in_bounds (lo hi : Q) (l : list Q) : bool :=
  forallb (fun v => Qle_bool lo v && Qle_bool v hi) l.

(** The range an image of each kind must lie in. *)
Definition dtype_bound (dt : dtype) : Q :=
  match dt with DFloat => 1 | DInt => 255 end.

(** A valid image (spec, data model): of shape (h, w, 3), with as many
    elements as the shape says, each within the range of its kind. *)
Definition valid_image (I : ndarray) : Prop :=
  wf_array I /\ is_3channel I = true
  /\ in_bounds 0 (dtype_bound (arr_dtype I)) (data I) = true.

(** The Cartesian coordinates of a hue / saturation / value triple. *)
Definition hsv_x {F : FloatOps} (p : pixel) : Q :=
  let '(h, s, _) := p in fmul s (fcos (fmul (fmul 2 fpi) h)).
Definition hsv_y {F : FloatOps} (p : pixel) : Q :=
  let '(h, s, _) := p in fmul s (fsin (fmul (fmul 2 fpi) h)).
Definition hsv_z (p : pixel) : Q := let '(_, _, v) := p in v.

(** The components of a lightness / a / b triple. *)
Definition lab_L (p : pixel) : Q := let '(l, _, _) := p in l.
Definition lab_a (p : pixel) : Q := let '(_, a, _) := p in a.
Definition lab_b (p : pixel) : Q := let '(_, _, b) := p in b.

(** Pixel [i] of the image, and its conversions. *)
Definition pixel_at (I : ndarray) (i : nat) : pixel :=
  nth i (pixels I) (0, 0, 0)%Q.

(** The colours [lab_uniform] computes, in the order of the input: each
    colour goes to L*a*b*, takes the mean lightness and goes back. *)
Definition uniform_colours {F : FloatOps} {C : ColorLib} (dt : dtype) (lyst : list pixel) : list pixel :=
  let labs := map (rgb2lab_px dt) lyst in
  let m := np_mean (col0 labs) in
  map lab2rgb_px (map (fun '(_, y, z) => (m, y, z)) labs).

(** ** [vis_ybr_cube] and the part the colour-space plots share *)

(** [skimage.color.rgb2ycbcr], per pixel. *)
Class YCbCrLib : Type := {
  rgb2ycbcr_px : dtype -> pixel -> pixel
}.

Definition color_rgb2ycbcr {Y : YCbCrLib} (a : ndarray) : result ndarray :=
  convert (rgb2ycbcr_px (arr_dtype a)) a.

Definition vis_ybr_cube {F : FloatOps} {Y : YCbCrLib} (I : ndarray)
  (numpoints : nat) : M (list nat) :=
  do Iybr <- lift (color_rgb2ycbcr I);
  do Xybr <- rgb_rows Iybr;
  do Xrgb <- rgb_rows I;
  do randomInds <- np_random_choice_arr (np_arange (length Xybr)) numpoints;
  run plot (Figure 4 4);
  run plot (AddSubplot3d 111);
  do point_colors <- point_colors_of Xrgb randomInds;
  do xs <- lift (take_rows (col0 Xybr) randomInds);
  do ys <- lift (take_rows (col1 Xybr) randomInds);
  do zs <- lift (take_rows (col2 Xybr) randomInds);
  run plot (Scatter xs ys zs point_colors (Some true));
  run plot (SetXLabel "Lightness (Y)");
  run plot (SetYLabel "yellow->blue (Cb)");
  run plot (SetZLabel "cyan->red (Cr)");
  ret randomInds.

(** What [vis_hsv_cube], [vis_lab_cube] and [vis_ybr_cube] do once the
    coordinates [X], [Y], [Z] of all pixels are known: draw the sample,
    create the figure, colour and plot the sampled points, label the
    axes. *)
Definition scatter_sampled {F : FloatOps} (sampler : M (list nat))
  (X Y Z : list Q) (Xrgb : list pixel) (lx ly lz : string) : M (list nat) :=
  do randomInds <- sampler;
  run plot (Figure 4 4);
  run plot (AddSubplot3d 111);
  do point_colors <- point_colors_of Xrgb randomInds;
  do xs <- lift (take_rows X randomInds);
  do ys <- lift (take_rows Y randomInds);
  do zs <- lift (take_rows Z randomInds);
  run plot (Scatter xs ys zs point_colors (Some true));
  run plot (SetXLabel lx);
  run plot (SetYLabel ly);
  run plot (SetZLabel lz);
  ret randomInds.


(** The colour [vis_rgb_cube] gives a point: the pixel itself when the
    image maximum is at most one, the pixel divided by 255 otherwise. *)
Definition rgb_display_colour {F : FloatOps} (mx : Q) (p : pixel) : pixel :=
  let '(r, g, b) := p in
  if Qle_bool mx 1 then (r, g, b) else (fdiv r 255, fdiv g 255, fdiv b 255).




(** ** A reference instance, to run the embedding *)

(** Arithmetic without rounding and short Taylor polynomials for the
    trigonometric functions. *)
Definition exact_float : FloatOps :=
  {| fadd := Qplus; fsub := Qminus; fmul := Qmult; fdiv := Qdiv;
     fsum := fun l => fold_right Qplus 0%Q l;
     fcos := fun x => (1 - x * x / 2)%Q;
     fsin := fun x => (x - x * x * x / 6)%Q;
     fpi := (355 # 113)%Q |}.

(** [img_as_float]: integer images are scaled by 1/255. *)
Definition as_float (dt : dtype) (v : Q) : Q :=
  match dt with DFloat => v | DInt => (v / 255)%Q end.

(** Hue, saturation and value as scikit-image computes them. *)
Definition ref_rgb2hsv (dt : dtype) (p : pixel) : pixel :=
  let '(r0, g0, b0) := p in
  let r := as_float dt r0 in
  let g := as_float dt g0 in
  let b := as_float dt b0 in
  let v := Qmax r (Qmax g b) in
  let delta := (v - Qmin r (Qmin g b))%Q in
  if Qeq_bool delta 0 then (0, 0, v)%Q
  else
    let h := if Qeq_bool r v then ((g - b) / delta)%Q
             else if Qeq_bool g v then (2 + (b - r) / delta)%Q
             else (4 + (r - g) / delta)%Q in
    let h6 := (h / 6)%Q in
    ((if Qle_bool 0 h6 then h6 else h6 + 1)%Q, (delta / v)%Q, v).

(** A linear stand-in for the L*a*b* conversions (a luma and two opponent
    axes); it is its own inverse pair. *)
Definition ref_rgb2lab (dt : dtype) (p : pixel) : pixel :=
  let '(r0, g0, b0) := p in
  let r := as_float dt r0 in
  let g := as_float dt g0 in
  let b := as_float dt b0 in
  ((100 * (r + g + b) / 3)%Q, (100 * (r - g))%Q, (100 * (g - b))%Q).

Definition ref_lab2rgb (p : pixel) : pixel :=
  let '(l, a, b) := p in
  (((3 * l + 2 * a + b) / 300)%Q, ((3 * l - a + b) / 300)%Q,
   ((3 * l - a - 2 * b) / 300)%Q).

Definition ref_color : ColorLib :=
  {| rgb2hsv_px := ref_rgb2hsv; rgb2lab_px := ref_rgb2lab;
     lab2rgb_px := ref_lab2rgb |}.

(** The 2 x 2 integer image of the end-to-end example. *)
Definition image_2x2 : ndarray :=
  {| arr_dtype := DInt; shape := [2; 2; 3];
     data := [255; 0; 0;  0; 255; 0;  0; 0; 255;  255; 255; 255]%Q |}.

(** A 50 x 100 float image, black everywhere. *)
Definition image_50x100 : ndarray :=
  {| arr_dtype := DFloat; shape := [50; 100; 3];
     data := repeat 0%Q (50 * 100 * 3) |}.




(** A world with an arithmetic tape and no plot yet. *)
Definition world0 : World :=
  {| rng := {| tape := fun i => 7 * i + 3; cursor := 0 |}; plots := [] |}.

(** [rgb2ycbcr] as scikit-image computes it, without rounding. *)
Definition ref_rgb2ycbcr (dt : dtype) (p : pixel) : pixel :=
  let '(r0, g0, b0) := p in
  let r := as_float dt r0 in
  let g := as_float dt g0 in
  let b := as_float dt b0 in
  ((16 + (65481 # 1000) * r + (128553 # 1000) * g + (24966 # 1000) * b)%Q,
   (128 - (37797 # 1000) * r - (74203 # 1000) * g + 112 * b)%Q,
   (128 + 112 * r - (93786 # 1000) * g - (18214 # 1000) * b)%Q).

Definition ref_ycbcr : YCbCrLib := {| rgb2ycbcr_px := ref_rgb2ycbcr |}.


Definition image_empty : ndarray :=
  {| arr_dtype := DFloat; shape := [0; 4; 3]; data := [] |}.



(** ** Running a computation *)

Lemma bind_ok {A B} (m : M A) (k : A -> M B) w a w' :
  m w = (Ok a, w') -> bind m k w = k a w'.
Proof. intros E. unfold bind. now rewrite E. Qed.

Lemma bind_raise {A B} (m : M A) (k : A -> M B) w e w' :
  m w = (Raise e, w') -> bind m k w = (Raise e, w').
Proof. intros E. unfold bind. now rewrite E. Qed.

Lemma lift_ok {A} (r : result A) a w : r = Ok a -> lift r w = (Ok a, w).
Proof. now intros ->. Qed.

Lemma plot_run c w :
  plot c w = (Ok tt, {| rng := rng w; plots := plots w ++ [c] |}).
Proof. reflexivity. Qed.

(** ** The sampler *)

Section Shuffle.
Context {A : Type}.

Lemma swap_length (l : list A) i j : length (swap l i j) = length l.
Proof.
  unfold swap. destruct (l !! i), (l !! j); auto.
  now rewrite !length_insert.
Qed.

Lemma swap_Permutation (l : list A) i j : swap l i j ≡ₚ l.
Proof.
  unfold swap.
  destruct (l !! i) as [xi|] eqn:Ei; [|reflexivity].
  destruct (l !! j) as [xj|] eqn:Ej; [|reflexivity].
  now apply Permutation_insert_swap.
Qed.

Lemma shuffle_from_Permutation i (x : list A) g :
  fst (shuffle_from i x g) ≡ₚ x.
Proof.
  revert x g. induction i as [|i IH]; intros x g; [reflexivity|].
  cbn [shuffle_from]. unfold random_interval.
  rewrite IH. apply swap_Permutation.
Qed.

End Shuffle.

Lemma np_random_permutation_Permutation n g :
  fst (np_random_permutation n g) ≡ₚ seq 0 n.
Proof. apply shuffle_from_Permutation. Qed.

Lemma np_random_permutation_length n g :
  length (fst (np_random_permutation n g)) = n.
Proof.
  rewrite (Permutation_length (np_random_permutation_Permutation n g)).
  apply length_seq.
Qed.

Lemma choice_indices_ok em pop_size size w :
  size <= pop_size ->
  exists inds g',
    choice_indices em pop_size size w
      = (Ok inds, {| rng := g'; plots := plots w |})
    /\ is_sample pop_size size inds.
Proof.
  intros Hle. unfold choice_indices.
  assert ((pop_size =? 0) && negb (size =? 0) = false) as ->.
  { destruct (Nat.eqb_spec pop_size 0); [|reflexivity].
    assert (size = 0) as -> by lia. now rewrite andb_false_r. }
  assert ((pop_size <? size) = false) as -> by (apply Nat.ltb_ge; lia).
  pose proof (np_random_permutation_Permutation pop_size (rng w)) as HP.
  pose proof (np_random_permutation_length pop_size (rng w)) as HL.
  destruct (np_random_permutation pop_size (rng w)) as [p g'].
  cbn [fst] in HP, HL.
  exists (take size p), g'. split; [reflexivity|].
  assert (NoDup p) as Hnd by (rewrite HP; apply NoDup_seq).
  repeat split.
  - rewrite length_take. lia.
  - eapply sublist_NoDup; [exact Hnd|apply sublist_take].
  - apply Forall_forall. intros i Hi.
    apply elem_of_take in Hi as (k & Hk & _).
    apply list_elem_of_lookup_2 in Hk. rewrite HP in Hk.
    apply elem_of_seq in Hk. lia.
Qed.

Lemma choice_indices_oversized em pop_size size w :
  pop_size < size ->
  exists msg, choice_indices em pop_size size w = (Raise (ValueError msg), w).
Proof.
  intros Hlt. unfold choice_indices.
  destruct ((pop_size =? 0) && negb (size =? 0)); [eexists; reflexivity|].
  assert ((pop_size <? size) = true) as -> by (apply Nat.ltb_lt; lia).
  eexists; reflexivity.
Qed.

(** Indexing with indices in range. *)
Lemma take_rows_ok {A} (X : list A) (inds : list nat) (d : A) :
  Forall (fun i => i < length X) inds ->
  take_rows X inds = Ok (map (fun i => nth i X d) inds).
Proof.
  induction 1 as [|i inds Hi _ IH]; [reflexivity|].
  cbn [take_rows map]. rewrite IH.
  destruct (X !! i) as [x|] eqn:E.
  - apply (nth_lookup_Some _ _ d) in E. now rewrite E.
  - apply lookup_ge_None in E. lia.
Qed.

Lemma take_rows_arange n inds :
  Forall (fun i => i < n) inds -> take_rows (np_arange n) inds = Ok inds.
Proof.
  intros H. unfold np_arange.
  rewrite (take_rows_ok _ _ 0) by (now rewrite length_seq).
  f_equal. rewrite <- (map_id inds) at 2.
  apply map_ext_Forall. eapply Forall_impl; [exact H|].
  intros i Hi. cbn beta in Hi. rewrite seq_nth; lia.
Qed.

Lemma np_random_choice_arr_arange n size w :
  np_random_choice_arr (np_arange n) size w
  = choice_indices msg_empty_arr n size w.
Proof.
  unfold np_random_choice_arr, np_arange. rewrite length_seq.
  destruct (Nat.le_gt_cases size n) as [Hle|Hgt].
  - destruct (choice_indices_ok msg_empty_arr n size w Hle) as (inds & g' & E & _ & _ & Hr).
    rewrite (bind_ok _ _ _ _ _ E), E. unfold lift.
    fold (np_arange n). now rewrite take_rows_arange.
  - destruct (choice_indices_oversized msg_empty_arr n size w Hgt) as (msg & E).
    now rewrite (bind_raise _ _ _ _ _ E), E.
Qed.

(** ** Arrays of pixels *)

Lemma length_flatten_px l : length (flatten_px l) = length l * 3.
Proof.
  induction l as [|[[x y] z] l IH]; [reflexivity|].
  change (flatten_px ((x, y, z) :: l)) with (x :: y :: z :: flatten_px l).
  cbn [length]. rewrite IH. lia.
Qed.

Lemma pixels_of_flatten (l : list pixel) :
  map (fun p => (nth (p * 3) (flatten_px l) 0, nth (p * 3 + 1) (flatten_px l) 0,
                 nth (p * 3 + 2) (flatten_px l) 0)%Q)
      (seq 0 (length l)) = l.
Proof.
  induction l as [|[[x y] z] l IH]; [reflexivity|].
  cbn [length]. rewrite <- cons_seq, <- seq_shift, map_cons, map_map.
  f_equal. etransitivity; [|exact IH]. apply map_ext. intros p.
  change (flatten_px ((x, y, z) :: l)) with (x :: y :: z :: flatten_px l).
  replace (S p * 3) with (S (S (S (p * 3)))) by lia.
  reflexivity.
Qed.

Lemma pixels_flatten dt s (l : list pixel) :
  pixels {| arr_dtype := dt; shape := s; data := flatten_px l |} = l.
Proof.
  unfold pixels. cbn [data].
  rewrite length_flatten_px, Nat.div_mul by discriminate.
  apply pixels_of_flatten.
Qed.

Lemma channel_0 a :
  last_dim a = Some 3 -> channel a 0 = Ok (col0 (pixels a)).
Proof.
  intros E. unfold channel, col0, pixels. rewrite E. cbn [Nat.ltb Nat.leb].
  rewrite map_map. f_equal. apply map_ext. intros p. now rewrite Nat.add_0_r.
Qed.

Lemma channel_1 a :
  last_dim a = Some 3 -> channel a 1 = Ok (col1 (pixels a)).
Proof.
  intros E. unfold channel, col1, pixels. rewrite E. cbn [Nat.ltb Nat.leb].
  now rewrite map_map.
Qed.

Lemma channel_2 a :
  last_dim a = Some 3 -> channel a 2 = Ok (col2 (pixels a)).
Proof.
  intros E. unfold channel, col2, pixels. rewrite E. cbn [Nat.ltb Nat.leb].
  now rewrite map_map.
Qed.

Lemma stack3_T_cols (X : list pixel) :
  stack3_T (col0 X) (col1 X) (col2 X) = X.
Proof.
  unfold stack3_T, col0, col1, col2.
  induction X as [|[[x y] z] X IH]; [reflexivity|].
  cbn [map combine]. now rewrite IH.
Qed.

Lemma rgb_rows_ok a w :
  last_dim a = Some 3 -> rgb_rows a w = (Ok (pixels a), w).
Proof.
  intros E. unfold rgb_rows, bind, lift, ret.
  rewrite (channel_0 a E), (channel_1 a E), (channel_2 a E).
  now rewrite stack3_T_cols.
Qed.

Lemma col0_length X : length (col0 X) = length X.
Proof. apply length_map. Qed.
Lemma col1_length X : length (col1 X) = length X.
Proof. apply length_map. Qed.
Lemma col2_length X : length (col2 X) = length X.
Proof. apply length_map. Qed.

Lemma convert_ok f a :
  last_dim a = Some 3 ->
  exists a', convert f a = Ok a' /\ last_dim a' = Some 3
             /\ shape a' = shape a /\ pixels a' = map f (pixels a).
Proof.
  intros E. unfold convert. rewrite E. eexists. split; [reflexivity|].
  repeat split; [exact E|]. apply pixels_flatten.
Qed.

Lemma convert_raise f a :
  last_dim a <> Some 3 -> exists msg, convert f a = Raise (ValueError msg).
Proof.
  intros E. unfold convert.
  destruct (last_dim a) as [[|[|[|[|n]]]]|]; try (eexists; reflexivity).
  now destruct E.
Qed.

Lemma pixel_count_shape h w I :
  wf_array I -> shape I = [h; w; 3] -> pixel_count I = h * w.
Proof.
  unfold wf_array, pixel_count, pixels. intros Hwf Hs.
  rewrite length_map, length_seq, Hwf, Hs. cbn [shape_size fold_right].
  rewrite Nat.mul_1_r, Nat.mul_assoc. now apply Nat.div_mul.
Qed.

(** ** Minimum and maximum *)

Lemma fold_left_Qmin_le t : forall x,
  (fold_left Qmin t x <= x)%Q /\ Forall (fun v => (fold_left Qmin t x <= v)%Q) t.
Proof.
  induction t as [|y t IH]; intros x; cbn [fold_left].
  - split; [apply Qle_refl|constructor].
  - destruct (IH (Qmin x y)) as [H1 H2]. split; [|constructor; [|exact H2]].
    + eapply Qle_trans; [exact H1|apply Q.le_min_l].
    + eapply Qle_trans; [exact H1|apply Q.le_min_r].
Qed.

Lemma fold_left_Qmin_glb lb t : forall x,
  (lb <= x)%Q -> Forall (fun v => (lb <= v)%Q) t -> (lb <= fold_left Qmin t x)%Q.
Proof.
  induction t as [|y t IH]; intros x Hx Ht; cbn [fold_left]; [exact Hx|].
  inversion Ht; subst. apply IH; [|assumption]. now apply Q.min_glb.
Qed.

Lemma fold_left_Qmax_ge t : forall x,
  (x <= fold_left Qmax t x)%Q /\ Forall (fun v => (v <= fold_left Qmax t x)%Q) t.
Proof.
  induction t as [|y t IH]; intros x; cbn [fold_left].
  - split; [apply Qle_refl|constructor].
  - destruct (IH (Qmax x y)) as [H1 H2]. split; [|constructor; [|exact H2]].
    + eapply Qle_trans; [apply Q.le_max_l|exact H1].
    + eapply Qle_trans; [apply Q.le_max_r|exact H1].
Qed.

Lemma fold_left_Qmax_lub ub t : forall x,
  (x <= ub)%Q -> Forall (fun v => (v <= ub)%Q) t -> (fold_left Qmax t x <= ub)%Q.
Proof.
  induction t as [|y t IH]; intros x Hx Ht; cbn [fold_left]; [exact Hx|].
  inversion Ht; subst. apply IH; [|assumption]. now apply Q.max_lub.
Qed.

Lemma np_min_spec l :
  l <> [] ->
  exists mn, np_min l = Ok mn
    /\ Forall (fun v => (mn <= v)%Q) l
    /\ forall lb, Forall (fun v => (lb <= v)%Q) l -> (lb <= mn)%Q.
Proof.
  destruct l as [|x t]; [congruence|]. intros _.
  exists (fold_left Qmin t x). split; [reflexivity|].
  destruct (fold_left_Qmin_le t x) as [H1 H2]. split; [now constructor|].
  intros lb H. inversion H; subst. now apply fold_left_Qmin_glb.
Qed.

Lemma np_max_spec l :
  l <> [] ->
  exists mx, np_max l = Ok mx
    /\ Forall (fun v => (v <= mx)%Q) l
    /\ forall ub, Forall (fun v => (v <= ub)%Q) l -> (mx <= ub)%Q.
Proof.
  destruct l as [|x t]; [congruence|]. intros _.
  exists (fold_left Qmax t x). split; [reflexivity|].
  destruct (fold_left_Qmax_ge t x) as [H1 H2]. split; [now constructor|].
  intros ub H. inversion H; subst. now apply fold_left_Qmax_lub.
Qed.

(** ** Validation in [vis_rgb_cube] and [vis_hists] *)

Lemma in_bounds_Forall lo hi l :
  in_bounds lo hi l = true ->
  Forall (fun v => (lo <= v)%Q) l /\ Forall (fun v => (v <= hi)%Q) l.
Proof.
  unfold in_bounds. induction l as [|x l IH]; cbn [forallb]; [now split|].
  intros H. apply andb_prop in H as [Hx Hl].
  apply andb_prop in Hx as [H1 H2]. apply Qle_bool_iff in H1, H2.
  destruct (IH Hl). split; now constructor.
Qed.

Lemma is_3channel_last_dim I : is_3channel I = true -> last_dim I = Some 3.
Proof.
  unfold is_3channel. intros H. apply andb_prop in H as [_ H].
  destruct (last_dim I) as [c|]; [|discriminate].
  apply Nat.eqb_eq in H. now subst.
Qed.


Lemma pixel_count_data I : 0 < pixel_count I -> data I <> [].
Proof.
  unfold pixel_count, pixels. rewrite length_map, length_seq.
  intros H E. rewrite E in H. cbn in H. lia.
Qed.

Lemma in_range_true I b w :
  data I <> [] -> in_bounds 0 b (data I) = true ->
  in_range I b w = (Ok true, w).
Proof.
  intros Hne Hb. apply in_bounds_Forall in Hb as [Hlo Hhi].
  destruct (np_min_spec _ Hne) as (mn & Emn & _ & Hglb).
  destruct (np_max_spec _ Hne) as (mx & Emx & _ & Hlub).
  unfold in_range, ravel, bind, lift, ret. rewrite Emn.
  assert (Qle_bool 0 mn = true) as -> by (apply Qle_bool_iff; auto).
  rewrite Emx.
  assert (Qle_bool mx b = true) as -> by (apply Qle_bool_iff; auto).
  reflexivity.
Qed.


(** ** [vis_rgb_cube] *)

Section RgbCube.
Context {F : FloatOps}.

(** Validation passes on a valid, non-empty image; the figure is then
    created and the sample is drawn with the fixed count. *)
Lemma vis_rgb_cube_valid I k w :
  valid_image I -> 0 < pixel_count I ->
  exists colr_func : Q -> Q,
    vis_rgb_cube I k w =
      (do randomInds <- choice_indices msg_empty_arr (pixel_count I) NUMPOINTS;
       do xs <- lift (take_rows (col0 (pixels I)) randomInds);
       do ys <- lift (take_rows (col1 (pixels I)) randomInds);
       do zs <- lift (take_rows (col2 (pixels I)) randomInds);
       do rows <- lift (take_rows (pixels I) randomInds);
       run plot (Scatter xs ys zs (map_px colr_func rows) None);
       run plot (SetXLabel "Red");
       run plot (SetYLabel "Green");
       run plot (SetZLabel "Blue");
       run plot TightLayout;
       ret randomInds)
      {| rng := rng w; plots := (plots w ++ [Figure 4 4]) ++ [AddSubplot3d 111] |}.
Proof.
  intros (Hwf & H3 & Hb) Hpos.
  pose proof (pixel_count_data I Hpos) as Hne.
  pose proof (is_3channel_last_dim I H3) as Hld.
  destruct (np_max_spec _ Hne) as (mx & Emx & _ & _).
  exists (if Qle_bool mx 1 then (fun x => x) else (fun x => fdiv x 255)).
  unfold vis_rgb_cube.
  rewrite (bind_ok _ _ w tt w) by (unfold assert_; now rewrite H3).
  rewrite (bind_ok _ _ w tt w).
  2:{ destruct (arr_dtype I); cbn [dtype_bound] in Hb;
      now rewrite (bind_ok _ _ w true w) by (now apply in_range_true). }
  rewrite (bind_ok _ _ w mx w) by (now apply lift_ok).
  rewrite (bind_ok _ _ _ _ _ (plot_run _ _)).
  rewrite (bind_ok _ _ _ _ _ (plot_run _ _)). cbn [rng plots].
  rewrite (bind_ok _ _ _ _ _ (rgb_rows_ok _ _ Hld)).
  unfold bind at 1. rewrite np_random_choice_arr_arange.
  reflexivity.
Qed.

Lemma vis_rgb_cube_samples I k w :
  valid_image I -> NUMPOINTS <= pixel_count I ->
  exists inds w',
    vis_rgb_cube I k w = (Ok inds, w')
    /\ is_sample (pixel_count I) NUMPOINTS inds.
Proof.
  intros Hv Hn.
  assert (0 < pixel_count I) as Hpos by (unfold NUMPOINTS in Hn; lia).
  destruct (vis_rgb_cube_valid I k w Hv Hpos) as (colr & ->).
  set (w1 := {| rng := rng w; plots := _ |}).
  destruct (choice_indices_ok msg_empty_arr _ _ w1 Hn) as (inds & g' & E & Hs).
  exists inds. rewrite (bind_ok _ _ _ _ _ E).
  destruct Hs as (Hlen & Hnd & Hr). fold (pixel_count I) in Hr.
  unfold pixel_count in Hr.
  pose proof (take_rows_ok (col0 (pixels I)) inds 0%Q
                ltac:(now rewrite col0_length)) as T0.
  pose proof (take_rows_ok (col1 (pixels I)) inds 0%Q
                ltac:(now rewrite col1_length)) as T1.
  pose proof (take_rows_ok (col2 (pixels I)) inds 0%Q
                ltac:(now rewrite col2_length)) as T2.
  pose proof (take_rows_ok (pixels I) inds (0, 0, 0)%Q Hr) as T.
  cbn beta.
  rewrite (bind_ok _ _ _ _ _ (lift_ok _ _ _ T0)).
  rewrite (bind_ok _ _ _ _ _ (lift_ok _ _ _ T1)).
  rewrite (bind_ok _ _ _ _ _ (lift_ok _ _ _ T2)).
  rewrite (bind_ok _ _ _ _ _ (lift_ok _ _ _ T)).
  repeat rewrite (bind_ok _ _ _ _ _ (plot_run _ _)).
  eexists. split; [reflexivity|]. now repeat split.
Qed.

Lemma vis_rgb_cube_oversized I k w :
  valid_image I -> 0 < pixel_count I < NUMPOINTS ->
  exists msg w',
    vis_rgb_cube I k w = (Raise (ValueError msg), w').
Proof.
  intros Hv [Hpos Hlt].
  destruct (vis_rgb_cube_valid I k w Hv Hpos) as (colr & ->).
  set (w1 := {| rng := rng w; plots := _ |}).
  destruct (choice_indices_oversized msg_empty_arr _ _ w1 Hlt) as (msg & E).
  exists msg, w1. now rewrite (bind_raise _ _ _ _ _ E).
Qed.

End RgbCube.

Lemma bind_inv {A B} (m : M A) (k : A -> M B) w b w' :
  bind m k w = (Ok b, w') ->
  exists a w1, m w = (Ok a, w1) /\ k a w1 = (Ok b, w').
Proof.
  unfold bind. destruct (m w) as [[a|e] w1]; [eauto|discriminate].
Qed.

Lemma choice_indices_inv em pop_size size w inds w' :
  choice_indices em pop_size size w = (Ok inds, w') ->
  is_sample pop_size size inds /\ plots w' = plots w.
Proof.
  intros E. destruct (Nat.le_gt_cases size pop_size) as [Hle|Hgt].
  - destruct (choice_indices_ok em _ _ w Hle) as (inds' & g' & E' & Hs).
    rewrite E in E'. injection E' as -> ->. now split.
  - destruct (choice_indices_oversized em _ _ w Hgt) as (msg & E').
    rewrite E in E'. discriminate.
Qed.

Lemma empty_image_data I :
  wf_array I -> is_3channel I = true -> pixel_count I = 0 -> data I = [].
Proof.
  unfold wf_array, pixel_count, pixels. rewrite length_map, length_seq.
  intros Hwf H3 H0. pose proof (is_3channel_last_dim I H3) as Hld.
  unfold is_3channel in H3. apply andb_prop in H3 as [Hlen _].
  apply Nat.eqb_eq in Hlen. unfold last_dim in Hld.
  destruct (shape I) as [|h [|w' [|c [|? ?]]]]; try discriminate.
  cbn in Hld. injection Hld as ->.
  cbn [shape_size fold_right] in Hwf. rewrite Nat.mul_1_r, Nat.mul_assoc in Hwf.
  rewrite Hwf, Nat.div_mul in H0 by discriminate.
  rewrite H0 in Hwf. now apply length_zero_iff_nil.
Qed.

Section RgbCubeClaims.
Context {F : FloatOps}.

(** C1 (amended).  For every valid 3-channel image I with values in range
    and the requested count k = 5000 that [vis_rgb_cube] draws: when I has
    at least k pixels the call does not raise and samples exactly
    k = min(k, pixelCount(I)) distinct pixel indices, each below
    pixelCount(I); when I has fewer than k pixels the call raises a
    ValueError: the request is not clamped to the pixel count. *)
Theorem vis_rgb_cube_sample_count I k w :
  valid_image I -> k = NUMPOINTS ->
  (k <= pixel_count I ->
     exists inds w',
       vis_rgb_cube I k w = (Ok inds, w')
       /\ length inds = Nat.min k (pixel_count I)
       /\ NoDup inds
       /\ Forall (fun i => i < pixel_count I) inds)
  /\ (pixel_count I < k ->
     exists msg w', vis_rgb_cube I k w = (Raise (ValueError msg), w')).
Proof.
  intros Hv ->. split.
  - intros Hle.
    destruct (vis_rgb_cube_samples I NUMPOINTS w Hv Hle)
      as (inds & w' & E & Hlen & Hnd & Hr).
    exists inds, w'. repeat split; try assumption.
    rewrite Hlen. symmetry. now apply Nat.min_l.
  - intros Hlt. destruct (Nat.eq_0_gt_0_cases (pixel_count I)) as [H0|Hpos].
    + destruct Hv as (Hwf & H3 & _).
      pose proof (empty_image_data I Hwf H3 H0) as Hd.
      unfold vis_rgb_cube.
      rewrite (bind_ok _ _ w tt w) by (unfold assert_; now rewrite H3).
      eexists _, w. apply bind_raise.
      destruct (arr_dtype I); apply bind_raise;
        unfold in_range, ravel; rewrite Hd; reflexivity.
    + now apply vis_rgb_cube_oversized.
Qed.

(** C2.  The sample of [vis_rgb_cube] does not depend on [numPoints]: for
    every image and every two values k1, k2 of the parameter, the runs
    from the same random state have the same outcome; an index set that
    is drawn has 5000 elements; and on a valid image of at least 5000
    pixels both runs do draw the same index set. *)
Theorem vis_rgb_cube_ignores_numPoints I k1 k2 w :
  vis_rgb_cube I k1 w = vis_rgb_cube I k2 w
  /\ (forall inds w',
        vis_rgb_cube I k1 w = (Ok inds, w') -> length inds = 5000)
  /\ (valid_image I -> 5000 <= pixel_count I ->
      exists inds w',
        vis_rgb_cube I k1 w = (Ok inds, w')
        /\ vis_rgb_cube I k2 w = (Ok inds, w')
        /\ length inds = 5000).
Proof.
  split; [reflexivity|]. split.
  - intros inds w' E. unfold vis_rgb_cube in E.
    apply bind_inv in E as (_ & w1 & _ & E).
    apply bind_inv in E as (_ & w2 & _ & E).
    apply bind_inv in E as (mx & w3 & _ & E).
    apply bind_inv in E as (_ & w4 & _ & E).
    apply bind_inv in E as (_ & w5 & _ & E).
    apply bind_inv in E as (X & w6 & _ & E).
    apply bind_inv in E as (randomInds & w7 & Ec & E).
    rewrite np_random_choice_arr_arange in Ec.
    apply choice_indices_inv in Ec as ((Hlen & _) & _).
    apply bind_inv in E as (xs & w8 & _ & E).
    apply bind_inv in E as (ys & w9 & _ & E).
    apply bind_inv in E as (zs & w10 & _ & E).
    apply bind_inv in E as (rows & w11 & _ & E).
    apply bind_inv in E as (_ & w12 & _ & E).
    apply bind_inv in E as (_ & w13 & _ & E).
    apply bind_inv in E as (_ & w14 & _ & E).
    apply bind_inv in E as (_ & w15 & _ & E).
    apply bind_inv in E as (_ & w16 & _ & E).
    unfold ret in E. injection E as <- _. exact Hlen.
  - intros Hv Hn.
    destruct (vis_rgb_cube_samples I k1 w Hv Hn) as (inds & w' & E & Hlen & _).
    exists inds, w'. repeat split; assumption.
Qed.


End RgbCubeClaims.

(** ** The colour-space scatter plots *)



Section ColourSpacePlots.
Context {F : FloatOps} {C : ColorLib}.


Lemma hsv_X_eq (PX : list pixel) :
  zip_with fmul (col1 PX)
    (map fcos (map (fun v => fmul (fmul 2 fpi) v) (col0 PX))) = map hsv_x PX.
Proof.
  unfold col0, col1.
  induction PX as [|[[h s] v] PX IH]; [reflexivity|].
  cbn [map zip_with]. now rewrite IH.
Qed.

Lemma hsv_Y_eq (PX : list pixel) :
  zip_with fmul (col1 PX)
    (map fsin (map (fun v => fmul (fmul 2 fpi) v) (col0 PX))) = map hsv_y PX.
Proof.
  unfold col0, col1.
  induction PX as [|[[h s] v] PX IH]; [reflexivity|].
  cbn [map zip_with]. now rewrite IH.
Qed.

Lemma hsv_Z_eq (PX : list pixel) : col2 PX = map hsv_z PX.
Proof. apply map_ext. now intros [[h s] v]. Qed.

(** After the conversion, [vis_hsv_cube] draws from the pixel indices and
    only then touches the plotting surface. *)
Lemma vis_hsv_cube_converted I K w :
  last_dim I = Some 3 ->
  vis_hsv_cube I K w =
    (do randomInds <- np_random_choice_int (pixel_count I) K;
     run plot (Figure 4 4);
     run plot (AddSubplot3d 111);
     do point_colors <- point_colors_of (pixels I) randomInds;
     do xs <- lift (take_rows
                      (map hsv_x (map (rgb2hsv_px (arr_dtype I)) (pixels I)))
                      randomInds);
     do ys <- lift (take_rows
                      (map hsv_y (map (rgb2hsv_px (arr_dtype I)) (pixels I)))
                      randomInds);
     do zs <- lift (take_rows
                      (map hsv_z (map (rgb2hsv_px (arr_dtype I)) (pixels I)))
                      randomInds);
     run plot (Scatter xs ys zs point_colors (Some true));
     run plot (SetXLabel "H and S");
     run plot (SetYLabel "H and S");
     run plot (SetZLabel "Value");
     ret randomInds) w.
Proof.
  intros Hld. unfold vis_hsv_cube, color_rgb2hsv.
  destruct (convert_ok (rgb2hsv_px (arr_dtype I)) I Hld)
    as (Ihsv & E & Hld' & _ & Hpx).
  rewrite (bind_ok _ _ _ _ _ (lift_ok _ _ _ E)).
  rewrite (bind_ok _ _ _ _ _ (lift_ok _ _ _ (channel_0 _ Hld'))).
  rewrite (bind_ok _ _ _ _ _ (lift_ok _ _ _ (channel_1 _ Hld'))).
  rewrite (bind_ok _ _ _ _ _ (lift_ok _ _ _ (channel_2 _ Hld'))).
  cbn zeta.
  rewrite (bind_ok _ _ _ _ _ (rgb_rows_ok _ _ Hld)).
  rewrite hsv_X_eq, hsv_Y_eq, hsv_Z_eq, Hpx.
  unfold pixel_count. now rewrite !length_map.
Qed.


End ColourSpacePlots.

Section LabCube.
Context {F : FloatOps} {C : ColorLib}.


End LabCube.

(** C6.  For every pixel count N and requested count K > N the sampler
    fails: the ValueError of the random-choice primitive reaches the
    caller of [vis_hsv_cube] as it is, and the world is left as it was, so
    that nothing has been plotted. *)
Theorem sampler_oversized_fails (N K : nat) (w : World) :
  N < K ->
  exists msg,
    np_random_choice_int N K w = (Raise (ValueError msg), w)
    /\ forall (F : FloatOps) (C : ColorLib) (I : ndarray),
         last_dim I = Some 3 -> pixel_count I = N ->
         vis_hsv_cube I K w = (Raise (ValueError msg), w)
         /\ plots (snd (vis_hsv_cube I K w)) = plots w.
Proof.
  intros Hlt. destruct (choice_indices_oversized msg_empty_int N K w Hlt) as (msg & E).
  exists msg. split; [exact E|]. intros F C I Hld HN.
  rewrite (vis_hsv_cube_converted I K w Hld), HN.
  unfold np_random_choice_int. now rewrite (bind_raise _ _ _ _ _ E).
Qed.




(** ** The histogram bin edges *)



Section Histogram.
Context {F : FloatOps}.








End Histogram.

(** ** [lab_uniform] *)

Section LabUniform.
Context {F : FloatOps} {C : ColorLib}.

Lemma lab_uniform_run dt lyst :
  lyst <> [] ->
  lab_uniform dt lyst =
    Ok {| arr_dtype := DFloat;
          shape := List.filter (fun d => negb (d =? 1)) [1; length lyst; 3];
          data := flatten_px (uniform_colours dt lyst) |}.
Proof.
  intros Hne. unfold lab_uniform, uniform_colours.
  assert (np_array_ndmin3 dt lyst =
          {| arr_dtype := dt; shape := [1; length lyst; 3];
             data := flatten_px lyst |}) as ->
    by (destruct lyst; [congruence|reflexivity]).
  unfold color_rgb2lab, color_lab2rgb, convert. cbn [last_dim shape last].
  rewrite pixels_flatten. cbn [arr_dtype].
  rewrite channel_0 by reflexivity. rewrite pixels_flatten.
  unfold set_channel0. cbn [last_dim shape last]. rewrite !pixels_flatten.
  reflexivity.
Qed.

Lemma lab_uniform_empty dt :
  exists msg, lab_uniform dt [] = Raise (ValueError msg).
Proof. eexists. reflexivity. Qed.

(** On two colours or more the result has one row per colour, in the
    order of the input. *)
Lemma lab_uniform_rows dt lyst :
  2 <= length lyst ->
  exists arr,
    lab_uniform dt lyst = Ok arr
    /\ py_len arr = Ok (length lyst)
    /\ pixels arr = uniform_colours dt lyst.
Proof.
  intros Hlen. assert (lyst <> []) as Hne by (intros ->; cbn in Hlen; lia).
  rewrite (lab_uniform_run dt lyst Hne). eexists. split; [reflexivity|].
  split; [|apply pixels_flatten].
  unfold py_len. cbn [shape List.filter Nat.eqb negb].
  destruct (length lyst =? 1) eqn:E; [apply Nat.eqb_eq in E; lia|].
  reflexivity.
Qed.

(** C5.  On a list of a single colour [lab_uniform] returns the three
    components of the normalised colour as an array of shape (3,): its
    length is 3 and not the length, 1, of the input list. *)
Theorem lab_uniform_single_colour dt (c : pixel) :
  exists arr,
    lab_uniform dt [c] = Ok arr
    /\ shape arr = [3]
    /\ py_len arr = Ok 3
    /\ data arr = flatten_px (uniform_colours dt [c]).
Proof.
  rewrite (lab_uniform_run dt [c]) by discriminate.
  eexists. split; [reflexivity|]. now repeat split.
Qed.

End LabUniform.

(** ** The reference instance satisfies the laws *)


(** ** The theorems at concrete inputs *)

Example choice_int_4_of_4 :
  fst (np_random_choice_int 4 4 world0) = Ok [0; 2; 1; 3].
Proof. reflexivity. Qed.

Example choice_int_5_of_4 :
  fst (np_random_choice_int 4 5 world0)
  = Raise (ValueError
      "Cannot take a larger sample than population when 'replace=False'").
Proof. reflexivity. Qed.

Example image_2x2_rows :
  fst (rgb_rows image_2x2 world0)
  = Ok [(255, 0, 0); (0, 255, 0); (0, 0, 255); (255, 255, 255)]%Q.
Proof. reflexivity. Qed.

Example vis_hsv_cube_2x2 :
  fst (vis_hsv_cube (F := exact_float) (C := ref_color) image_2x2 4 world0)
  = Ok [0; 2; 1; 3].
Proof. vm_compute. reflexivity. Qed.

Example vis_hsv_cube_2x2_none :
  fst (vis_hsv_cube (F := exact_float) (C := ref_color) image_2x2 0 world0)
  = Raise (ValueError
      "zero-size array to reduction operation maximum which has no identity").
Proof. vm_compute. reflexivity. Qed.

Example vis_rgb_cube_2x2_plots :
  plots (snd (vis_rgb_cube (F := exact_float) image_2x2 4 world0))
  = [Figure 4 4; AddSubplot3d 111].
Proof. vm_compute. reflexivity. Qed.

Example bin_edges_2x2 :
  let e := histogram_bin_edges (F := exact_float) (ravel image_2x2) 256 in
  length e = 257 /\ nth 1 e 0%Q == 255 # 256 /\ nth 256 e 0%Q = 255%Q.
Proof. vm_compute. repeat split. Qed.

Example lab_uniform_two_colours :
  match lab_uniform (F := exact_float) (C := ref_color) DFloat
          [(1, 0, 0); (0, 1, 0)]%Q with
  | Ok arr => shape arr = [2; 3]
  | Raise _ => False
  end.
Proof. reflexivity. Qed.

Example lab_uniform_one_colour :
  match lab_uniform (F := exact_float) (C := ref_color) DFloat [(1, 0, 0)]%Q with
  | Ok arr => shape arr = [3]
  | Raise _ => False
  end.
Proof. reflexivity. Qed.

Lemma image_50x100_valid : valid_image image_50x100.
Proof. repeat split; vm_compute; reflexivity. Defined.

Lemma image_50x100_pixels : 5000 <= pixel_count image_50x100.
Proof. apply Nat.leb_le. vm_compute. reflexivity. Defined.

(** A 50 x 100 image and the count 5000: the sample has 5000 distinct
    indices. *)
Lemma vis_rgb_cube_sample_count_witness :
  exists inds w',
    vis_rgb_cube (F := exact_float) image_50x100 5000 world0 = (Ok inds, w')
    /\ length inds = Nat.min 5000 (pixel_count image_50x100)
    /\ NoDup inds
    /\ Forall (fun i => i < pixel_count image_50x100) inds.
Proof.
  apply (vis_rgb_cube_sample_count (F := exact_float) image_50x100 5000 world0
           image_50x100_valid eq_refl).
  exact image_50x100_pixels.
Defined.

(** The 2 x 2 image is valid and has four pixels; asked for 5000 samples,
    [vis_rgb_cube] raises, where min(5000, 4) = 4 indices were
    expected. *)
Lemma vis_rgb_cube_small_image_raises :
  valid_image image_2x2
  /\ pixel_count image_2x2 = 4
  /\ fst (vis_rgb_cube (F := exact_float) image_2x2 5000 world0)
     = Raise (ValueError
         "Cannot take a larger sample than population when 'replace=False'").
Proof. repeat split; vm_compute; reflexivity. Qed.

Lemma vis_rgb_cube_ignores_numPoints_witness :
  exists inds w',
    vis_rgb_cube (F := exact_float) image_50x100 10 world0 = (Ok inds, w')
    /\ vis_rgb_cube (F := exact_float) image_50x100 20 world0 = (Ok inds, w')
    /\ length inds = 5000.
Proof.
  apply (vis_rgb_cube_ignores_numPoints (F := exact_float)
           image_50x100 10 20 world0).
  - exact image_50x100_valid.
  - exact image_50x100_pixels.
Defined.



Lemma sampler_oversized_fails_witness :
  exists msg,
    np_random_choice_int 4 5 world0 = (Raise (ValueError msg), world0)
    /\ vis_hsv_cube (F := exact_float) (C := ref_color) image_2x2 5 world0
       = (Raise (ValueError msg), world0).
Proof.
  destruct (sampler_oversized_fails 4 5 world0 ltac:(lia)) as (msg & E & H).
  exists msg. split; [exact E|].
  apply (H exact_float ref_color image_2x2); reflexivity.
Defined.





(** * Further properties of the module *)

(** ** The shared part of the colour-space plots *)

Section ScatterSampled.
Context {F : FloatOps}.

Lemma scatter_sampled_raise sampler X Y Z Xrgb lx ly lz w e w' :
  sampler w = (Raise e, w') ->
  scatter_sampled sampler X Y Z Xrgb lx ly lz w = (Raise e, w').
Proof. intros E. unfold scatter_sampled. now apply bind_raise. Qed.

(** An empty sample: the figure is created, then the maximum of no
    colour at all is asked for. *)
Lemma scatter_sampled_empty sampler X Y Z Xrgb lx ly lz w w1 :
  sampler w = (Ok [], w1) ->
  scatter_sampled sampler X Y Z Xrgb lx ly lz w =
    (Raise (ValueError
       "zero-size array to reduction operation maximum which has no identity"),
     {| rng := rng w1;
        plots := plots w1 ++ [Figure 4 4; AddSubplot3d 111] |}).
Proof.
  intros E. unfold scatter_sampled. rewrite (bind_ok _ _ _ _ _ E).
  rewrite (bind_ok _ _ _ _ _ (plot_run _ _)).
  rewrite (bind_ok _ _ _ _ _ (plot_run _ _)). cbn [rng plots].
  rewrite <- app_assoc. cbn [app]. reflexivity.
Qed.


End ScatterSampled.

Section SharedForms.
Context {F : FloatOps} {C : ColorLib} {Y : YCbCrLib}.

Lemma vis_hsv_cube_shared I K w :
  last_dim I = Some 3 ->
  vis_hsv_cube I K w =
    scatter_sampled (np_random_choice_int (pixel_count I) K)
      (map hsv_x (map (rgb2hsv_px (arr_dtype I)) (pixels I)))
      (map hsv_y (map (rgb2hsv_px (arr_dtype I)) (pixels I)))
      (map hsv_z (map (rgb2hsv_px (arr_dtype I)) (pixels I)))
      (pixels I) "H and S" "H and S" "Value" w.
Proof. intros Hld. now rewrite (vis_hsv_cube_converted I K w Hld). Qed.

Lemma vis_lab_cube_shared I K w :
  last_dim I = Some 3 ->
  vis_lab_cube I K w =
    scatter_sampled (np_random_choice_arr (np_arange (pixel_count I)) K)
      (map lab_a (map (rgb2lab_px (arr_dtype I)) (pixels I)))
      (map lab_b (map (rgb2lab_px (arr_dtype I)) (pixels I)))
      (map lab_L (map (rgb2lab_px (arr_dtype I)) (pixels I)))
      (pixels I) "green->red" "blue->yellow" "Lightness" w.
Proof.
  intros Hld. unfold vis_lab_cube, color_rgb2lab.
  destruct (convert_ok (rgb2lab_px (arr_dtype I)) I Hld)
    as (Ilab & E & Hld' & _ & Hpx).
  rewrite (bind_ok _ _ _ _ _ (lift_ok _ _ _ E)).
  rewrite (bind_ok _ _ _ _ _ (rgb_rows_ok _ _ Hld')).
  rewrite (bind_ok _ _ _ _ _ (rgb_rows_ok _ _ Hld)).
  rewrite Hpx, length_map. reflexivity.
Qed.

Lemma vis_ybr_cube_shared I K w :
  last_dim I = Some 3 ->
  vis_ybr_cube I K w =
    scatter_sampled (np_random_choice_arr (np_arange (pixel_count I)) K)
      (col0 (map (rgb2ycbcr_px (arr_dtype I)) (pixels I)))
      (col1 (map (rgb2ycbcr_px (arr_dtype I)) (pixels I)))
      (col2 (map (rgb2ycbcr_px (arr_dtype I)) (pixels I)))
      (pixels I) "Lightness (Y)" "yellow->blue (Cb)" "cyan->red (Cr)" w.
Proof.
  intros Hld. unfold vis_ybr_cube, color_rgb2ycbcr.
  destruct (convert_ok (rgb2ycbcr_px (arr_dtype I)) I Hld)
    as (Iybr & E & Hld' & _ & Hpx).
  rewrite (bind_ok _ _ _ _ _ (lift_ok _ _ _ E)).
  rewrite (bind_ok _ _ _ _ _ (rgb_rows_ok _ _ Hld')).
  rewrite (bind_ok _ _ _ _ _ (rgb_rows_ok _ _ Hld)).
  rewrite Hpx, length_map. reflexivity.
Qed.

End SharedForms.

(** ** More on the sampler *)

Lemma choice_indices_zero em n w :
  choice_indices em n 0 w =
    (Ok [], {| rng := snd (np_random_permutation n (rng w));
               plots := plots w |}).
Proof.
  unfold choice_indices. cbn [Nat.eqb negb]. rewrite andb_false_r.
  assert ((n <? 0) = false) as -> by (apply Nat.ltb_ge; lia).
  destruct (np_random_permutation n (rng w)) as [p g']. reflexivity.
Qed.

Lemma choice_indices_oversized_msg em pop_size size w :
  0 < pop_size < size ->
  choice_indices em pop_size size w =
    (Raise (ValueError
       "Cannot take a larger sample than population when 'replace=False'"), w).
Proof.
  intros [Hpos Hlt]. unfold choice_indices.
  assert ((pop_size =? 0) = false) as -> by (apply Nat.eqb_neq; lia).
  cbn [andb].
  assert ((pop_size <? size) = true) as -> by (apply Nat.ltb_lt; lia).
  reflexivity.
Qed.

Lemma choice_indices_msg_indep em em' pop_size size w :
  size <= pop_size ->
  choice_indices em pop_size size w = choice_indices em' pop_size size w.
Proof.
  intros Hle. unfold choice_indices.
  destruct ((pop_size =? 0) && negb (size =? 0)) eqn:E; [|reflexivity].
  apply andb_prop in E as [E1 E2]. apply Nat.eqb_eq in E1.
  assert (size = 0) as -> by lia. discriminate.
Qed.



Lemma nth_col0 (X : list pixel) i :
  nth i (col0 X) 0%Q = fst (fst (nth i X (0, 0, 0)%Q)).
Proof.
  unfold col0.
  transitivity ((fun '((x, _, _) : pixel) => x) (nth i X (0, 0, 0)%Q)).
  - exact (map_nth _ X (0, 0, 0)%Q i).
  - now destruct (nth i X (0, 0, 0)%Q) as [[x y] z].
Qed.

Lemma nth_col1 (X : list pixel) i :
  nth i (col1 X) 0%Q = snd (fst (nth i X (0, 0, 0)%Q)).
Proof.
  unfold col1.
  transitivity ((fun '((_, y, _) : pixel) => y) (nth i X (0, 0, 0)%Q)).
  - exact (map_nth _ X (0, 0, 0)%Q i).
  - now destruct (nth i X (0, 0, 0)%Q) as [[x y] z].
Qed.

Lemma nth_col2 (X : list pixel) i :
  nth i (col2 X) 0%Q = snd (nth i X (0, 0, 0)%Q).
Proof.
  unfold col2.
  transitivity ((fun '((_, _, z) : pixel) => z) (nth i X (0, 0, 0)%Q)).
  - exact (map_nth _ X (0, 0, 0)%Q i).
  - now destruct (nth i X (0, 0, 0)%Q) as [[x y] z].
Qed.


Section ColourPlotEdges.
Context {F : FloatOps} {C : ColorLib} {Y : YCbCrLib}.


(** X2.  [vis_lab_cube] and [vis_ybr_cube] asked for more samples than
    the image has pixels raise the ValueError of the random choice; the
    random state and the plotting surface are left as they were. *)
Theorem lab_ybr_oversized_fail I K w :
  last_dim I = Some 3 -> pixel_count I < K ->
  exists msg,
    vis_lab_cube I K w = (Raise (ValueError msg), w)
    /\ vis_ybr_cube I K w = (Raise (ValueError msg), w).
Proof.
  intros Hld Hlt.
  destruct (choice_indices_oversized msg_empty_arr _ _ w Hlt) as (msg & E).
  rewrite <- np_random_choice_arr_arange in E.
  exists msg. split.
  - rewrite (vis_lab_cube_shared I K w Hld). now apply scatter_sampled_raise.
  - rewrite (vis_ybr_cube_shared I K w Hld). now apply scatter_sampled_raise.
Qed.


(** X4.  Asked for no sample at all, the three colour-space plots fail
    after the figure and its axes have been created: the maximum of the
    empty colour array raises a ValueError. *)
Theorem colour_plots_zero_samples I w :
  last_dim I = Some 3 ->
  exists g',
    let e := ValueError
      "zero-size array to reduction operation maximum which has no identity" in
    let w' := {| rng := g';
                 plots := plots w ++ [Figure 4 4; AddSubplot3d 111] |} in
    vis_hsv_cube I 0 w = (Raise e, w')
    /\ vis_lab_cube I 0 w = (Raise e, w')
    /\ vis_ybr_cube I 0 w = (Raise e, w').
Proof.
  intros Hld. exists (snd (np_random_permutation (pixel_count I) (rng w))).
  intros e w'.
  pose proof (choice_indices_zero msg_empty_int (pixel_count I) w) as Ei.
  pose proof (choice_indices_zero msg_empty_arr (pixel_count I) w) as Ea.
  rewrite <- np_random_choice_arr_arange in Ea.
  repeat split.
  - rewrite (vis_hsv_cube_shared I 0 w Hld).
    now rewrite (scatter_sampled_empty _ _ _ _ _ _ _ _ _ _ Ei).
  - rewrite (vis_lab_cube_shared I 0 w Hld).
    now rewrite (scatter_sampled_empty _ _ _ _ _ _ _ _ _ _ Ea).
  - rewrite (vis_ybr_cube_shared I 0 w Hld).
    now rewrite (scatter_sampled_empty _ _ _ _ _ _ _ _ _ _ Ea).
Qed.

End ColourPlotEdges.

(** ** More on [vis_rgb_cube] and [vis_hists] *)


Lemma map_px_display_colour {F : FloatOps} mx rows :
  map_px (if Qle_bool mx 1 then (fun x => x) else (fun x => fdiv x 255)) rows
  = map (rgb_display_colour mx) rows.
Proof.
  unfold map_px, rgb_display_colour. apply map_ext. intros [[r g] b].
  now destruct (Qle_bool mx 1).
Qed.

Section RgbCubeEdges.
Context {F : FloatOps}.

Lemma vis_rgb_cube_valid_colour I k w :
  valid_image I -> 0 < pixel_count I ->
  exists mx,
    np_max (ravel I) = Ok mx /\
    vis_rgb_cube I k w =
      (do randomInds <- choice_indices msg_empty_arr (pixel_count I) NUMPOINTS;
       do xs <- lift (take_rows (col0 (pixels I)) randomInds);
       do ys <- lift (take_rows (col1 (pixels I)) randomInds);
       do zs <- lift (take_rows (col2 (pixels I)) randomInds);
       do rows <- lift (take_rows (pixels I) randomInds);
       run plot (Scatter xs ys zs (map (rgb_display_colour mx) rows) None);
       run plot (SetXLabel "Red");
       run plot (SetYLabel "Green");
       run plot (SetZLabel "Blue");
       run plot TightLayout;
       ret randomInds)
      {| rng := rng w; plots := plots w ++ [Figure 4 4; AddSubplot3d 111] |}.
Proof.
  intros (Hwf & H3 & Hb) Hpos.
  pose proof (pixel_count_data I Hpos) as Hne.
  pose proof (is_3channel_last_dim I H3) as Hld.
  destruct (np_max_spec _ Hne) as (mx & Emx & _ & _).
  exists mx. split; [exact Emx|].
  unfold vis_rgb_cube.
  rewrite (bind_ok _ _ w tt w) by (unfold assert_; now rewrite H3).
  rewrite (bind_ok _ _ w tt w).
  2:{ destruct (arr_dtype I); cbn [dtype_bound] in Hb;
      now rewrite (bind_ok _ _ w true w) by (now apply in_range_true). }
  rewrite (bind_ok _ _ w mx w) by (now apply lift_ok).
  rewrite (bind_ok _ _ _ _ _ (plot_run _ _)).
  rewrite (bind_ok _ _ _ _ _ (plot_run _ _)). cbn [rng plots].
  rewrite (bind_ok _ _ _ _ _ (rgb_rows_ok _ _ Hld)).
  rewrite <- app_assoc. cbn [app].
  unfold bind at 1. rewrite np_random_choice_arr_arange.
  symmetry. unfold bind at 1. symmetry. cbn zeta.
  change (length (pixels I)) with (pixel_count I).
  destruct (choice_indices msg_empty_arr (pixel_count I) NUMPOINTS
              {| rng := rng w;
                 plots := plots w ++ [Figure 4 4; AddSubplot3d 111] |})
    as [[inds|e] w1]; [|reflexivity].
  unfold bind, lift.
  destruct (take_rows (col0 (pixels I)) inds); [|reflexivity].
  destruct (take_rows (col1 (pixels I)) inds); [|reflexivity].
  destruct (take_rows (col2 (pixels I)) inds); [|reflexivity].
  destruct (take_rows (pixels I) inds); [|reflexivity].
  now rewrite map_px_display_colour.
Qed.

(** X5.  On a valid image with fewer pixels than the 5000 it draws,
    [vis_rgb_cube] has already created the figure and its 3-D axes when
    the random choice raises: the ValueError leaves an empty figure
    behind and the random state untouched. *)
Theorem vis_rgb_cube_small_image_leaves_figure I k w :
  valid_image I -> 0 < pixel_count I < NUMPOINTS ->
  vis_rgb_cube I k w =
    (Raise (ValueError
       "Cannot take a larger sample than population when 'replace=False'"),
     {| rng := rng w; plots := plots w ++ [Figure 4 4; AddSubplot3d 111] |}).
Proof.
  intros Hv [Hpos Hlt].
  destruct (vis_rgb_cube_valid_colour I k w Hv Hpos) as (mx & _ & ->).
  apply bind_raise. apply choice_indices_oversized_msg. now split.
Qed.

(** X6.  On a valid image of at least 5000 pixels [vis_rgb_cube] plots
    each sampled pixel at its own red, green and blue values, coloured by
    the pixel itself when the image maximum is at most one and by the
    pixel divided by 255 otherwise, labels the axes Red, Green, Blue and
    tightens the layout. *)
Theorem vis_rgb_cube_plot I k w :
  valid_image I -> NUMPOINTS <= pixel_count I ->
  exists inds mx g',
    np_max (ravel I) = Ok mx
    /\ is_sample (pixel_count I) NUMPOINTS inds
    /\ vis_rgb_cube I k w =
         (Ok inds,
          {| rng := g';
             plots := plots w ++
               [Figure 4 4; AddSubplot3d 111;
                Scatter (map (fun i => fst (fst (pixel_at I i))) inds)
                        (map (fun i => snd (fst (pixel_at I i))) inds)
                        (map (fun i => snd (pixel_at I i)) inds)
                        (map (fun i => rgb_display_colour mx (pixel_at I i)) inds)
                        None;
                SetXLabel "Red"; SetYLabel "Green"; SetZLabel "Blue";
                TightLayout] |}).
Proof.
  intros Hv Hn.
  assert (0 < pixel_count I) as Hpos by (unfold NUMPOINTS in Hn; lia).
  destruct (vis_rgb_cube_valid_colour I k w Hv Hpos) as (mx & Emx & ->).
  set (w1 := {| rng := rng w; plots := _ |}).
  destruct (choice_indices_ok msg_empty_arr _ _ w1 Hn) as (inds & g' & E & Hs).
  exists inds, mx, g'. split; [exact Emx|]. split; [exact Hs|].
  rewrite (bind_ok _ _ _ _ _ E).
  destruct Hs as (Hlen & Hnd & Hr). unfold pixel_count in Hr.
  pose proof (take_rows_ok (col0 (pixels I)) inds 0%Q
                ltac:(now rewrite col0_length)) as T0.
  pose proof (take_rows_ok (col1 (pixels I)) inds 0%Q
                ltac:(now rewrite col1_length)) as T1.
  pose proof (take_rows_ok (col2 (pixels I)) inds 0%Q
                ltac:(now rewrite col2_length)) as T2.
  pose proof (take_rows_ok (pixels I) inds (0, 0, 0)%Q Hr) as T.
  cbn beta.
  rewrite (bind_ok _ _ _ _ _ (lift_ok _ _ _ T0)).
  rewrite (bind_ok _ _ _ _ _ (lift_ok _ _ _ T1)).
  rewrite (bind_ok _ _ _ _ _ (lift_ok _ _ _ T2)).
  rewrite (bind_ok _ _ _ _ _ (lift_ok _ _ _ T)).
  repeat rewrite (bind_ok _ _ _ _ _ (plot_run _ _)).
  unfold ret, w1. cbn [rng plots]. rewrite <- !app_assoc. cbn [app].
  rewrite map_map.
  rewrite (map_ext (fun i => nth i (col0 (pixels I)) 0%Q)
             (fun i => fst (fst (pixel_at I i)))) by (intros; apply nth_col0).
  rewrite (map_ext (fun i => nth i (col1 (pixels I)) 0%Q)
             (fun i => snd (fst (pixel_at I i)))) by (intros; apply nth_col1).
  rewrite (map_ext (fun i => nth i (col2 (pixels I)) 0%Q)
             (fun i => snd (pixel_at I i))) by (intros; apply nth_col2).
  reflexivity.
Qed.


(** X8.  On an image of three channels without any pixel
    [vis_rgb_cube] does not get to its range assertion: the minimum of the
    empty array raises a ValueError, and neither the random state nor the
    plotting surface is touched. *)
Theorem vis_rgb_cube_empty_image I k w :
  is_3channel I = true -> data I = [] ->
  vis_rgb_cube I k w =
    (Raise (ValueError
       "zero-size array to reduction operation minimum which has no identity"),
     w).
Proof.
  intros H3 Hd. unfold vis_rgb_cube.
  rewrite (bind_ok _ _ w tt w) by (unfold assert_; now rewrite H3).
  apply bind_raise.
  destruct (arr_dtype I); apply bind_raise;
    unfold in_range, ravel; rewrite Hd; reflexivity.
Qed.

End RgbCubeEdges.

(** ** The display colours *)






Section DisplayColours.
Context {F : FloatOps}.



End DisplayColours.


Section ColourPlotColours.
Context {F : FloatOps} {C : ColorLib} {Y : YCbCrLib}.





End ColourPlotColours.

(** ** A full draw, the histograms' data, the shape of [lab_uniform] *)






Section LabUniformShape.
Context {F : FloatOps} {C : ColorLib}.

(** X13.  [lab_uniform] raises a ValueError exactly on the empty list;
    on n >= 1 colours it returns a float array of 3n numbers, of shape
    (n, 3) for n >= 2 and of shape (3,) for a single colour. *)
Theorem lab_uniform_shape dt (lyst : list pixel) :
  match lab_uniform dt lyst with
  | Raise e => lyst = [] /\ exists msg, e = ValueError msg
  | Ok arr =>
      lyst <> []
      /\ shape arr = (if length lyst =? 1 then [3] else [length lyst; 3])
      /\ length (data arr) = length lyst * 3
      /\ arr_dtype arr = DFloat
  end.
Proof.
  destruct lyst as [|c lyst].
  - destruct (lab_uniform_empty dt) as (msg & ->). split; [reflexivity|].
    now exists msg.
  - rewrite (lab_uniform_run dt (c :: lyst)) by discriminate.
    split; [discriminate|]. cbn [shape data arr_dtype].
    split; [|split; [|reflexivity]].
    + cbn [List.filter Nat.eqb negb].
      destruct (length (c :: lyst) =? 1); reflexivity.
    + rewrite length_flatten_px. unfold uniform_colours.
      now rewrite !length_map.
Qed.

(** X14.  On two colours or more, row i of the result of [lab_uniform]
    is the conversion back to RGB of the L*a*b* triple made of the mean
    lightness m of the whole list and of the a and b of the input colour
    i: the order is kept and every row is given the same lightness. *)
Theorem lab_uniform_rows_pointwise dt (lyst : list pixel) :
  2 <= length lyst ->
  exists arr m,
    lab_uniform dt lyst = Ok arr
    /\ py_len arr = Ok (length lyst)
    /\ m = np_mean (map (fun p => lab_L (rgb2lab_px dt p)) lyst)
    /\ forall i, i < length lyst ->
         pixel_at arr i =
           lab2rgb_px (m, lab_a (rgb2lab_px dt (nth i lyst (0, 0, 0)%Q)),
                          lab_b (rgb2lab_px dt (nth i lyst (0, 0, 0)%Q))).
Proof.
  intros Hlen.
  destruct (lab_uniform_rows dt lyst Hlen) as (arr & E & Hpl & Hpx).
  exists arr, (np_mean (map (fun p => lab_L (rgb2lab_px dt p)) lyst)).
  split; [exact E|]. split; [exact Hpl|]. split; [reflexivity|].
  intros i Hi. unfold pixel_at. rewrite Hpx. unfold uniform_colours.
  cbn zeta. rewrite !map_map.
  rewrite (nth_indep _ _
             ((fun p => lab2rgb_px
                 (let '(_, y, z) := rgb2lab_px dt p in
                  (np_mean (col0 (map (rgb2lab_px dt) lyst)), y, z)))
              (0, 0, 0)%Q)) by (now rewrite length_map).
  rewrite (map_nth (fun p => lab2rgb_px
                 (let '(_, y, z) := rgb2lab_px dt p in
                  (np_mean (col0 (map (rgb2lab_px dt) lyst)), y, z)))).
  unfold col0. rewrite map_map.
  destruct (rgb2lab_px dt (nth i lyst (0, 0, 0)%Q)) as [[l a] b] eqn:El.
  cbn [lab_a lab_b]. reflexivity.
Qed.

End LabUniformShape.


(** ** The further properties at concrete inputs *)

Lemma image_2x2_valid : valid_image image_2x2.
Proof. repeat split; vm_compute; reflexivity. Defined.


Lemma lab_ybr_oversized_fail_witness :
  exists msg,
    vis_lab_cube (F := exact_float) (C := ref_color) image_2x2 5 world0
      = (Raise (ValueError msg), world0)
    /\ vis_ybr_cube (F := exact_float) (Y := ref_ycbcr) image_2x2 5 world0
      = (Raise (ValueError msg), world0).
Proof.
  apply (lab_ybr_oversized_fail (F := exact_float) (C := ref_color)
           (Y := ref_ycbcr) image_2x2 5 world0 eq_refl).
  vm_compute. lia.
Defined.


Lemma colour_plots_zero_samples_witness :
  exists w',
    plots w' = [Figure 4 4; AddSubplot3d 111]
    /\ vis_hsv_cube (F := exact_float) (C := ref_color) image_2x2 0 world0
       = (Raise (ValueError
            "zero-size array to reduction operation maximum which has no identity"),
          w')
    /\ vis_ybr_cube (F := exact_float) (Y := ref_ycbcr) image_2x2 0 world0
       = (Raise (ValueError
            "zero-size array to reduction operation maximum which has no identity"),
          w').
Proof.
  destruct (colour_plots_zero_samples (F := exact_float) (C := ref_color)
              (Y := ref_ycbcr) image_2x2 world0 eq_refl) as (g' & H1 & _ & H3).
  eexists. split; [|split; [exact H1|exact H3]]. reflexivity.
Defined.

Lemma vis_rgb_cube_small_image_leaves_figure_witness :
  vis_rgb_cube (F := exact_float) image_2x2 5000 world0 =
    (Raise (ValueError
       "Cannot take a larger sample than population when 'replace=False'"),
     {| rng := rng world0; plots := [Figure 4 4; AddSubplot3d 111] |}).
Proof.
  apply (vis_rgb_cube_small_image_leaves_figure (F := exact_float)
           image_2x2 5000 world0 image_2x2_valid).
  vm_compute. lia.
Defined.

Lemma vis_rgb_cube_plot_witness :
  exists inds mx g',
    np_max (ravel image_50x100) = Ok mx
    /\ is_sample (pixel_count image_50x100) NUMPOINTS inds
    /\ vis_rgb_cube (F := exact_float) image_50x100 12 world0 =
         (Ok inds,
          {| rng := g';
             plots := plots world0 ++
               [Figure 4 4; AddSubplot3d 111;
                Scatter (map (fun i => fst (fst (pixel_at image_50x100 i))) inds)
                        (map (fun i => snd (fst (pixel_at image_50x100 i))) inds)
                        (map (fun i => snd (pixel_at image_50x100 i)) inds)
                        (map (fun i => rgb_display_colour (F := exact_float) mx
                                         (pixel_at image_50x100 i)) inds)
                        None;
                SetXLabel "Red"; SetYLabel "Green"; SetZLabel "Blue";
                TightLayout] |}).
Proof.
  exact (vis_rgb_cube_plot (F := exact_float) image_50x100 12 world0
           image_50x100_valid image_50x100_pixels).
Defined.


Lemma vis_rgb_cube_empty_image_witness :
  vis_rgb_cube (F := exact_float) image_empty 5000 world0 =
    (Raise (ValueError
       "zero-size array to reduction operation minimum which has no identity"),
     world0).
Proof.
  exact (vis_rgb_cube_empty_image (F := exact_float) image_empty 5000 world0
           eq_refl eq_refl).
Defined.






Lemma lab_uniform_rows_pointwise_witness :
  exists arr m,
    lab_uniform (F := exact_float) (C := ref_color) DFloat
      [(1, 0, 0); (0, 1, 0)]%Q = Ok arr
    /\ py_len arr = Ok 2
    /\ pixel_at arr 1 =
         ref_lab2rgb (m, lab_a (ref_rgb2lab DFloat (0, 1, 0)%Q),
                         lab_b (ref_rgb2lab DFloat (0, 1, 0)%Q)).
Proof.
  destruct (lab_uniform_rows_pointwise (F := exact_float) (C := ref_color)
              DFloat [(1, 0, 0); (0, 1, 0)]%Q (le_n 2))
    as (arr & m & E & Hl & _ & Hrow).
  exists arr, m. split; [exact E|]. split; [exact Hl|].
  apply (Hrow 1). cbn. lia.
Defined.
